(** * Air-sea fluxes notebook ([airsea_fluxes/airsea_data.ipynb])

    A shallow embedding of the notebook's code cells, written once over an
    abstract arithmetic and read at two instances:

    - [Exact]: the real numbers, the arithmetic the formulas denote;
    - [B64]: IEEE 754 binary64 with round-to-nearest-even, the arithmetic
      CPython floats and [numpy.float64] scalars perform.

    Each cell is a function of the variables it reads and returns the
    variables it binds.  Cell 2 binds Python floats.  Every value that
    comes out of [coare35vn.coare35vn] (through [A[0].T]) and out of
    [gsw] is a numpy scalar, and so is everything computed from one:
    numpy arithmetic never raises, it returns an infinity or a NaN (with
    a warning).  Of the notebook's own arithmetic only [Cfrac**3] in
    cell 3, which CPython evaluates on one of its own floats, can
    raise. *)

From Stdlib Require Import PrimFloat SpecFloat.
From Stdlib Require FloatOps.
From Stdlib Require Import ZArith Bool String List Lia.
From Stdlib Require Import Reals Lra.

#[local] Set Warnings "-inexact-float".
Import ListNotations.

Set Implicit Arguments.

(** ** Outcome of running a piece of Python *)

Inductive exn : Type :=
| OverflowError
| IndexError
| ValueError
| Custom (name : string).

Inductive result (A : Type) : Type :=
| Return (a : A)
| Raise (e : exn).

Arguments Return {A} a.
Arguments Raise {A} e.

Definition bind {A B : Type} (r : result A) (k : A -> result B) : result B :=
  match r with
  | Return a => k a
  | Raise e => Raise e
  end.

Declare Scope py_scope.
Delimit Scope py_scope with py.
Notation "x <- r ;; k" := (bind r (fun x => k))
  (at level 61, r at next level, right associativity) : py_scope.

(** ** The arithmetic the notebook uses *)

Class Arith (F : Type) : Type := {
  (** the decimal literal [m * 10^-k]: [lit 6 2] is [0.06], [lit 3600 0]
      is [3600.] and also the integer [3600] where it meets a float *)
  lit : Z -> nat -> F;
  add : F -> F -> F;
  sub : F -> F -> F;
  mul : F -> F -> F;
  div : F -> F -> F;
  neg : F -> F;
  (** [np.sqrt] *)
  np_sqrt : F -> F;
  (** [x ** n] on a numpy scalar *)
  np_power : F -> positive -> F;
  (** [x ** n] on a Python float: raises [OverflowError] when a finite
      base gives a result out of range *)
  float_pow : F -> positive -> result F
}.

Declare Scope arith_scope.
Delimit Scope arith_scope with A.
Notation "x + y" := (add x y) : arith_scope.
Notation "x - y" := (sub x y) : arith_scope.
Notation "x * y" := (mul x y) : arith_scope.
Notation "x / y" := (div x y) : arith_scope.
Notation "- x" := (neg x) : arith_scope.

(** ** Exact arithmetic *)

Module Exact.

Definition literal (m : Z) (k : nat) : R := (IZR m / 10 ^ k)%R.

#[global] Instance arith : Arith R := {|
  lit := literal;
  add := Rplus;
  sub := Rminus;
  mul := Rmult;
  div := Rdiv;
  neg := Ropp;
  np_sqrt := R_sqrt.sqrt;
  np_power := fun x n => (x ^ Pos.to_nat n)%R;
  float_pow := fun x n => Return (x ^ Pos.to_nat n)%R
|}.

End Exact.

(** ** Binary64 arithmetic *)

Module B64.

Definition t : Type := spec_float.

Definition prec : Z := 53.
Definition emax : Z := 1024.

Definition of_Z (m : Z) : t := binary_normalize prec emax m 0 false.

(** A decimal literal is the binary64 number nearest to it; both [m] and
    [10^k] are exact in the literals of the notebook, so the correctly
    rounded quotient is that number. *)
Definition literal (m : Z) (k : nat) : t :=
  match k with
  | O => of_Z m
  | _ => SFdiv prec emax (of_Z m) (of_Z (10 ^ Z.of_nat k))
  end.

Definition odd (n : positive) : bool :=
  match n with
  | xO _ => false
  | _ => true
  end.

(** [pow(x, n)] of the C library for a positive integer [n], taken as the
    correctly rounded power.  Zeros, infinities and NaN behave as C99
    annex F says; the sign of the result is the sign of [x] when [n] is
    odd.  A C library may return a neighbour of the correctly rounded
    value; the theorems on this model use only whether the result is a
    zero, finite, an infinity or NaN. *)
Definition pow (x : t) (n : positive) : t :=
  match x with
  | S754_nan => S754_nan
  | S754_infinity s => S754_infinity (s && odd n)
  | S754_zero s => S754_zero (s && odd n)
  | S754_finite s m e =>
      binary_round_aux prec emax (s && odd n) (Zpos (m ^ n)) (Zpos n * e)
        loc_Exact
  end.

Definition is_finite (x : t) : bool :=
  match x with
  | S754_zero _ | S754_finite _ _ _ => true
  | _ => false
  end.

Definition is_infinity (x : t) : bool :=
  match x with
  | S754_infinity _ => true
  | _ => false
  end.

(** CPython's [float_pow]: the result of [pow] is returned unless the
    base is finite and the result is an infinity, which raises
    [OverflowError]; an underflow to zero is not an error. *)
Definition py_float_pow (x : t) (n : positive) : result t :=
  let r := pow x n in
  if is_finite x && is_infinity r then Raise OverflowError else Return r.

#[global] Instance arith : Arith t := {|
  lit := literal;
  add := SFadd prec emax;
  sub := SFsub prec emax;
  mul := SFmul prec emax;
  div := SFdiv prec emax;
  neg := SFopp;
  np_sqrt := SFsqrt prec emax;
  np_power := pow;
  float_pow := py_float_pow
|}.

(** The value of a float literal as the kernel's binary64 reads it. *)
Definition of_float (x : PrimFloat.float) : t := FloatOps.Prim2SF x.

Definition leb : t -> t -> bool := SFleb.
Definition ltb : t -> t -> bool := SFltb.

(** A binary64 number: the mantissa is canonical for the exponent. *)
Definition valid : t -> bool := valid_binary prec emax.

(** Rough size of a float: a mantissa of at most [D] binary digits and
    an exponent of at most [E].  Zeros have no size; infinities and NaN
    are excluded. *)
Definition within (D E : Z) (x : t) : Prop :=
  match x with
  | S754_finite _ m e => (Zdigits2 (Zpos m) <= D /\ e <= E)%Z
  | S754_zero _ => True
  | _ => False
  end.

End B64.

(** ** The notebook *)

Section Notebook.

Context {F : Type} {AF : Arith F}.
Local Open Scope arith_scope.
Local Open Scope py_scope.

(** Cell 2: the observation. *)
Record Observation : Type := {
  windspeed : F;
  airTemperature : F;
  relativeHumidity : F;
  bulkSST : F;
  latitude : F;
  MSLP : F;
  Hs : F;
  rain : F;
  mastHeight : F;
  cloudCover : F;
  QswIdeal : F;
  surfaceSalinity : F;
  dBar : F;
  g : F;
  rho0 : F
}.

Definition cell2 : Observation := {|
  windspeed := lit 54 1;
  airTemperature := lit 78 1;
  relativeHumidity := lit 500 1;
  bulkSST := lit 74 1;
  latitude := lit 599 1;
  MSLP := lit 10111 1;
  Hs := lit 2 1;
  rain := lit 0 1;
  mastHeight := lit 80 1;
  cloudCover := lit 70 1;
  QswIdeal := lit 9700 1;
  surfaceSalinity := lit 230 1;
  dBar := lit 1 1;
  g := lit 981 2;
  rho0 := lit 10250 1
|}.

(** The two libraries the notebook imports.  [coare35vn.coare35vn] returns
    a two-dimensional array, one row per observation; the [gsw] functions
    return a scalar. *)
Record CoareArgs : Type := {
  arg_u : F; arg_t : F; arg_rh : F; arg_ts : F;
  arg_P : F; arg_Rs : F; arg_sigH : F;
  arg_zu : F; arg_zt : F; arg_zq : F; arg_lat : F
}.

Variable coare35vn : CoareArgs -> result (list (list F)).
Variable gsw_alpha gsw_beta gsw_cp_t_exact : F -> F -> F -> result F.

(** *** Cell 3 *)

Record Shortwave : Type := {
  Cfrac : F;
  albedo : F;
  Qshortwave : F
}.

(** [Cfrac = cloudCover/8.0; albedo = 0.06;
     Qshortwave = (1.0-albedo)*QswIdeal*(1-Cfrac**3)] *)
Definition cell3_shortwave (cloudCover QswIdeal : F) : result Shortwave :=
  let Cfrac := cloudCover / lit 80 1 in
  let albedo := lit 6 2 in
  p <- float_pow Cfrac 3 ;;
  let Qshortwave := (lit 10 1 - albedo) * QswIdeal * (lit 1 0 - p) in
  Return {| Cfrac := Cfrac; albedo := albedo; Qshortwave := Qshortwave |}.

Record Bulk : Type := {
  tau : F;
  Qsensible : F;
  Qlatent : F;
  LWnet : F;
  QnetMinusSW : F;
  evaporation : F
}.

(** [A[0]]: the first row, [IndexError] on an array without rows. *)
Definition first_row (A : list (list F)) : result (list F) :=
  match A with
  | row :: _ => Return row
  | [] => Raise IndexError
  end.

(** [tau, Qsensible, Qlatent, LWnet, QnetMinusSW, evaporation = A[0].T]:
    the transpose of a row is the row; unpacking needs exactly six
    values. *)
Definition unpack6 (row : list F) : result Bulk :=
  match row with
  | [a; b; c; d; e; f] =>
      Return {| tau := a; Qsensible := b; Qlatent := c; LWnet := d;
                QnetMinusSW := e; evaporation := f |}
  | _ => Raise ValueError
  end.

Definition coare_args (o : Observation) (Qshortwave : F) : CoareArgs := {|
  arg_u := windspeed o; arg_t := airTemperature o;
  arg_rh := relativeHumidity o; arg_ts := bulkSST o;
  arg_P := MSLP o; arg_Rs := Qshortwave; arg_sigH := Hs o;
  arg_zu := mastHeight o; arg_zt := mastHeight o; arg_zq := mastHeight o;
  arg_lat := latitude o
|}.

Definition cell3 (o : Observation) : result (Shortwave * Bulk) :=
  sw <- cell3_shortwave (cloudCover o) (QswIdeal o) ;;
  A <- coare35vn (coare_args o (Qshortwave sw)) ;;
  row <- first_row A ;;
  b <- unpack6 row ;;
  Return (sw, b).

(** *** Cell 4 *)

Record Coefficients : Type := {
  alpha : F;
  beta : F;
  Cp : F
}.

Definition cell4 (o : Observation) : result Coefficients :=
  a <- gsw_alpha (surfaceSalinity o) (bulkSST o) (dBar o) ;;
  b <- gsw_beta (surfaceSalinity o) (bulkSST o) (dBar o) ;;
  c <- gsw_cp_t_exact (surfaceSalinity o) (bulkSST o) (dBar o) ;;
  Return {| alpha := a; beta := b; Cp := c |}.

(** *** Cell 5: the density flux *)

Record DensityFlux : Type := {
  evap : F;
  precip : F;
  Qnet : F;
  Ft : F;
  Fs : F;
  Qp : F
}.

Definition cell5 (evaporation rain QnetMinusSW Qshortwave rho0 Cp
                  surfaceSalinity alpha beta : F) : result DensityFlux :=
  let evap := evaporation / lit 3600 0 in
  let precip := rain / lit 3600 0 in
  let Qnet := - QnetMinusSW + Qshortwave in
  let Ft := - Qnet / (rho0 * Cp) in
  let Fs := (evap - precip) / (lit 1 0 - surfaceSalinity / lit 1000 0) in
  let Qp := rho0 * (alpha * Ft + beta * Fs) in
  Return {| evap := evap; precip := precip; Qnet := Qnet;
            Ft := Ft; Fs := Fs; Qp := Qp |}.

(** *** Cell 6: buoyancy flux and Obukhov length *)

Record Obukhov : Type := {
  Bf : F;
  ustar : F;
  kappa : F;
  L : F
}.

Definition cell6 (g Qp rho0 tau : F) : result Obukhov :=
  let Bf := - g * Qp / rho0 in
  let ustar := np_sqrt (tau / rho0) in
  let kappa := lit 4 1 in
  let L := - np_power ustar 3 / (kappa * Bf) in
  Return {| Bf := Bf; ustar := ustar; kappa := kappa; L := L |}.

(** *** Cell 7: the summary

    The six values handed to the format strings, in the order printed
    under the heading [Summary of fluxes defined as positive into the
    ocean:]. *)

Record FluxSummary : Type := {
  sensible_heat_flux : F;
  latent_heat_flux : F;
  net_longwave_radiation : F;
  net_heat_flux : F;
  buoyancy_flux : F;
  obukhov_length : F
}.

Definition cell7 (Qsensible Qlatent LWnet Qnet Bf L : F) : FluxSummary := {|
  sensible_heat_flux := - Qsensible;
  latent_heat_flux := - Qlatent;
  net_longwave_radiation := - LWnet;
  net_heat_flux := Qnet;
  buoyancy_flux := Bf;
  obukhov_length := L
|}.

(** *** The cells in order *)

Definition notebook (o : Observation) : result FluxSummary :=
  c3 <- cell3 o ;;
  c4 <- cell4 o ;;
  c5 <- cell5 (evaporation (snd c3)) (rain o) (QnetMinusSW (snd c3))
          (Qshortwave (fst c3)) (rho0 o) (Cp c4) (surfaceSalinity o)
          (alpha c4) (beta c4) ;;
  c6 <- cell6 (g o) (Qp c5) (rho0 o) (tau (snd c3)) ;;
  Return (cell7 (Qsensible (snd c3)) (Qlatent (snd c3)) (LWnet (snd c3))
            (Qnet c5) (Bf c6) (L c6)).

End Notebook.

Arguments Observation F : clear implicits.
Arguments CoareArgs F : clear implicits.
Arguments Shortwave F : clear implicits.
Arguments Bulk F : clear implicits.
Arguments Coefficients F : clear implicits.
Arguments DensityFlux F : clear implicits.
Arguments Obukhov F : clear implicits.
Arguments FluxSummary F : clear implicits.

(** ** A run with fixed collaborators

    Values for the two libraries under which the summary prints as the
    output recorded in the notebook. *)

Module Recorded.

Definition coare35vn (_ : CoareArgs B64.t) : result (list (list B64.t)) :=
  Return [[lit 3556 5; lit (-407) 2; lit 570 1; lit (-1835) 2;
           lit 34585 3; lit 828 4]].

Definition gsw_alpha (_ _ _ : B64.t) : result B64.t := Return (lit 11 5).
Definition gsw_beta (_ _ _ : B64.t) : result B64.t := Return (lit 77 5).
Definition gsw_cp_t_exact (_ _ _ : B64.t) : result B64.t :=
  Return (lit 40700 1).

Definition run (o : Observation B64.t) : result (FluxSummary B64.t) :=
  notebook coare35vn gsw_alpha gsw_beta gsw_cp_t_exact o.

End Recorded.

Unset Implicit Arguments.

(** * Properties that hold in every arithmetic *)

Section Generic.

Context {F : Type} {AF : Arith F}.
Variable coare35vn : CoareArgs F -> result (list (list F)).
Variable gsw_alpha gsw_beta gsw_cp_t_exact : F -> F -> F -> result F.
Local Open Scope arith_scope.

Lemma bind_Return_inv (A B : Type) (r : result A) (k : A -> result B) (b : B) :
  bind r k = Return b -> exists a, r = Return a /\ k a = Return b.
Proof.
  destruct r as [a | e]; simpl; intro H.
  - exists a. split; [reflexivity | exact H].
  - discriminate H.
Qed.

Lemma bind_Raise_inv (A B : Type) (r : result A) (k : A -> result B) (e : exn) :
  bind r k = Raise e ->
  r = Raise e \/ exists a, r = Return a /\ k a = Raise e.
Proof.
  destruct r as [a | e']; simpl; intro H.
  - right. exists a. split; [reflexivity | exact H].
  - left. now inversion H.
Qed.

(** Cells 5 and 6 are straight-line numpy arithmetic: they return, and
    their bindings are the expressions of the source. *)
Lemma cell5_returns (evaporation rain QnetMinusSW Qshortwave rho0 Cp
                     surfaceSalinity alpha beta : F) :
  cell5 evaporation rain QnetMinusSW Qshortwave rho0 Cp surfaceSalinity
    alpha beta
  = Return {|
      evap := evaporation / lit 3600 0;
      precip := rain / lit 3600 0;
      Qnet := - QnetMinusSW + Qshortwave;
      Ft := - (- QnetMinusSW + Qshortwave) / (rho0 * Cp);
      Fs := (evaporation / lit 3600 0 - rain / lit 3600 0)
            / (lit 1 0 - surfaceSalinity / lit 1000 0);
      Qp := rho0 * (alpha * (- (- QnetMinusSW + Qshortwave) / (rho0 * Cp))
                    + beta * ((evaporation / lit 3600 0 - rain / lit 3600 0)
                              / (lit 1 0 - surfaceSalinity / lit 1000 0)))
    |}.
Proof. reflexivity. Qed.

Lemma cell6_returns (g Qp rho0 tau : F) :
  cell6 g Qp rho0 tau
  = Return {|
      Bf := - g * Qp / rho0;
      ustar := np_sqrt (tau / rho0);
      kappa := lit 4 1;
      L := - np_power (np_sqrt (tau / rho0)) 3 / (lit 4 1 * (- g * Qp / rho0))
    |}.
Proof. reflexivity. Qed.

(** The shortwave stage fails only if [Cfrac**3] does, and with that
    exception. *)
Lemma cell3_shortwave_Raise (c Q : F) (e : exn) :
  cell3_shortwave c Q = Raise e -> float_pow (c / lit 80 1) 3 = Raise e.
Proof.
  unfold cell3_shortwave. intro H.
  apply bind_Raise_inv in H. destruct H as [H1 | [p [_ H2]]].
  - exact H1.
  - discriminate H2.
Qed.

Lemma cell3_shortwave_Return (c Q : F) (sw : Shortwave F) :
  cell3_shortwave c Q = Return sw ->
  exists p, float_pow (c / lit 80 1) 3 = Return p /\
    sw = {| Cfrac := c / lit 80 1; albedo := lit 6 2;
            Qshortwave := (lit 10 1 - lit 6 2) * Q * (lit 1 0 - p) |}.
Proof.
  unfold cell3_shortwave. intro H.
  apply bind_Return_inv in H. destruct H as [p [H1 H2]].
  exists p. split; [exact H1 |]. now inversion H2.
Qed.

Lemma cell3_Return (o : Observation F) (sw : Shortwave F) (b : Bulk F) :
  cell3 coare35vn o = Return (sw, b) ->
  cell3_shortwave (cloudCover o) (QswIdeal o) = Return sw /\
  exists A row, coare35vn (coare_args o (Qshortwave sw)) = Return A /\
    first_row A = Return row /\ unpack6 row = Return b.
Proof.
  unfold cell3. intro H.
  apply bind_Return_inv in H. destruct H as [sw' [H1 H2]].
  apply bind_Return_inv in H2. destruct H2 as [A [H3 H4]].
  apply bind_Return_inv in H4. destruct H4 as [row [H5 H6]].
  apply bind_Return_inv in H6. destruct H6 as [b' [H7 H8]].
  inversion H8; subst sw' b'.
  split; [exact H1 |]. exists A, row. auto.
Qed.

(** C5.  Whenever the shortwave stage returns, the estimator returns an
    array whose first row is [tau, Qsensible, Qlatent, LWnet,
    QnetMinusSW, evaporation], and cell 4 returns, the notebook returns
    the summary whose sensible heat flux, latent heat flux and net
    longwave radiation are the negations of the estimator's [Qsensible],
    [Qlatent] and [LWnet] (the second, third and fourth value of that
    row), and whose net heat flux, buoyancy flux and Obukhov length are
    the [Qnet], [Bf] and [L] that cells 5 and 6 compute from the row,
    not negated. *)
Theorem summary_positive_into_ocean
  (o : Observation F) (sw : Shortwave F) (c : Coefficients F)
  (tau_e Qsensible_e Qlatent_e LWnet_e QnetMinusSW_e evaporation_e : F)
  (rows : list (list F)) :
  cell3_shortwave (cloudCover o) (QswIdeal o) = Return sw ->
  coare35vn (coare_args o (Qshortwave sw))
  = Return ([tau_e; Qsensible_e; Qlatent_e; LWnet_e; QnetMinusSW_e;
             evaporation_e] :: rows) ->
  cell4 gsw_alpha gsw_beta gsw_cp_t_exact o = Return c ->
  exists d ob,
    cell5 evaporation_e (rain o) QnetMinusSW_e (Qshortwave sw) (rho0 o)
      (Cp c) (surfaceSalinity o) (alpha c) (beta c) = Return d /\
    cell6 (g o) (Qp d) (rho0 o) tau_e = Return ob /\
    Qnet d = - QnetMinusSW_e + Qshortwave sw /\
    Bf ob = - g o * Qp d / rho0 o /\
    notebook coare35vn gsw_alpha gsw_beta gsw_cp_t_exact o
    = Return {| sensible_heat_flux := - Qsensible_e;
                latent_heat_flux := - Qlatent_e;
                net_longwave_radiation := - LWnet_e;
                net_heat_flux := Qnet d;
                buoyancy_flux := Bf ob;
                obukhov_length := L ob |}.
Proof.
  intros Hsw HA H4.
  eexists. eexists.
  split; [apply cell5_returns |].
  split; [apply cell6_returns |].
  split; [reflexivity |]. split; [reflexivity |].
  unfold notebook, cell3. rewrite Hsw. cbn [bind]. rewrite HA.
  cbn [bind first_row unpack6]. rewrite H4. reflexivity.
Qed.

(** C10.  Whenever cell 3 returns, the albedo it used is the literal
    [0.06], the net shortwave irradiance is
    [(1.0 - 0.06) * QswIdeal * (1 - (cloudCover/8.0)**3)], and that is
    the [Rs] handed to the bulk flux estimator.  The stage reads
    [cloudCover] and [QswIdeal] only; an [Observation] has no albedo. *)
Theorem albedo_fixed_at_0_06
  (o : Observation F) (sw : Shortwave F) (b : Bulk F) :
  cell3 coare35vn o = Return (sw, b) ->
  albedo sw = lit 6 2 /\
  cell3_shortwave (cloudCover o) (QswIdeal o) = Return sw /\
  (exists p, float_pow (cloudCover o / lit 80 1) 3 = Return p /\
     Qshortwave sw = (lit 10 1 - lit 6 2) * QswIdeal o * (lit 1 0 - p)) /\
  exists A, coare35vn (coare_args o (Qshortwave sw)) = Return A /\
    arg_Rs (coare_args o (Qshortwave sw))
    = Qshortwave sw.
Proof.
  intro H. apply cell3_Return in H. destruct H as [Hsw [A [row [HA _]]]].
  pose proof Hsw as Hsw'.
  apply cell3_shortwave_Return in Hsw'. destruct Hsw' as [p [Hp Esw]].
  subst sw.
  simpl. repeat split; try assumption.
  - exists p. split; [exact Hp | reflexivity].
  - exists A. split; [exact HA | reflexivity].
Qed.

End Generic.

(** * Exact arithmetic: the formulas of cells 3, 5 and 6 *)

Section ExactFormulas.

Local Open Scope R_scope.




Lemma lit_1 : lit (F:=R) 1 0 = 1.
Proof. unfold lit; simpl; unfold Exact.literal; simpl; lra. Qed.

Lemma lit_3600 : lit (F:=R) 3600 0 = 3600.
Proof. unfold lit; simpl; unfold Exact.literal; simpl; lra. Qed.

Lemma lit_1000 : lit (F:=R) 1000 0 = 1000.
Proof. unfold lit; simpl; unfold Exact.literal; simpl; lra. Qed.

Lemma lit_0_4 : lit (F:=R) 4 1 = 4 / 10.
Proof. unfold lit; simpl; unfold Exact.literal; simpl; lra. Qed.




End ExactFormulas.

Section ExactClaims.

Local Open Scope R_scope.





(** C9, amended.  In exact arithmetic the division by 3600 of cell 5 is
    undone by a multiplication by 3600, for evaporation and for rain. *)
Theorem unit_conversion_round_trip
  (evaporation rain QnetMinusSW Qshortwave rho0 Cp surfaceSalinity
   alpha beta : R) :
  exists d,
    cell5 evaporation rain QnetMinusSW Qshortwave rho0 Cp surfaceSalinity
      alpha beta = Return d /\
    evap d * 3600 = evaporation /\
    precip d * 3600 = rain.
Proof.
  rewrite cell5_returns, lit_3600.
  eexists. split; [reflexivity |]. simpl. split; field.
Qed.

End ExactClaims.

Section ExactExamples.

Local Open Scope R_scope.







End ExactExamples.

(** * Binary64 arithmetic: what the interpreter does at the edges *)

Section B64Claims.

Local Open Scope arith_scope.

(** The literals of the notebook are the binary64 numbers Python reads. *)
Example lit_agrees_with_float :
  lit 6 2 = B64.of_float 0.06 /\
  lit 80 1 = B64.of_float 8.0 /\
  lit 4 1 = B64.of_float 0.4 /\
  lit 981 2 = B64.of_float 9.81 /\
  lit 3600 0 = B64.of_float 3600.0.
Proof. vm_compute. repeat split. Qed.

Example cell2_as_floats :
  cell2
  = {| windspeed := B64.of_float 5.4;
       airTemperature := B64.of_float 7.8;
       relativeHumidity := B64.of_float 50.0;
       bulkSST := B64.of_float 7.4;
       latitude := B64.of_float 59.9;
       MSLP := B64.of_float 1011.1;
       Hs := B64.of_float 0.2;
       rain := B64.of_float 0.0;
       mastHeight := B64.of_float 8.0;
       cloudCover := B64.of_float 7.0;
       QswIdeal := B64.of_float 970.0;
       surfaceSalinity := B64.of_float 23.0;
       dBar := B64.of_float 0.1;
       g := B64.of_float 9.81;
       rho0 := B64.of_float 1025.0 |}.
Proof. vm_compute. reflexivity. Qed.

Lemma ltb_zero_cases (x : B64.t) :
  B64.ltb (S754_zero false) x = true ->
  x = S754_infinity false \/ exists m e, x = S754_finite false m e.
Proof.
  destruct x as [s | s | | s m e]; try destruct s; simpl;
    try discriminate; eauto.
Qed.

Lemma ltb_cases_zero (x : B64.t) :
  B64.ltb x (S754_zero false) = true ->
  x = S754_infinity true \/ exists m e, x = S754_finite true m e.
Proof.
  destruct x as [s | s | | s m e]; try destruct s; simpl;
    try discriminate; eauto.
Qed.

Lemma kappa_times_zero (s : bool) :
  lit 4 1 * S754_zero s = S754_zero s.
Proof. destruct s; reflexivity. Qed.

(** Rounding keeps the sign it is given, so a square root and its cube
    are never below zero. *)
Lemma round_not_negative (m e : Z) (l : location) :
  B64.ltb (binary_round_aux B64.prec B64.emax false m e l) (S754_zero false)
  = false.
Proof.
  unfold binary_round_aux.
  destruct (shr_fexp B64.prec B64.emax m e l) as [mrs1 e1].
  destruct (shr_fexp B64.prec B64.emax _ e1 loc_Exact) as [mrs2 e2].
  destruct (shr_m mrs2) as [| p | p]; try reflexivity.
  destruct (e2 <=? B64.emax - B64.prec)%Z; reflexivity.
Qed.

Lemma sqrt_not_negative (x : B64.t) :
  B64.ltb (np_sqrt x) (S754_zero false) = false.
Proof.
  destruct x as [s | s | | s m e]; try destruct s; try reflexivity.
  change (np_sqrt (S754_finite false m e))
    with (let '(mz, ez, lz) :=
            SFsqrt_core_binary B64.prec B64.emax (Zpos m) e in
          binary_round_aux B64.prec B64.emax false mz ez lz).
  destruct (SFsqrt_core_binary B64.prec B64.emax (Zpos m) e) as [[mz ez] lz].
  apply round_not_negative.
Qed.

Lemma cube_of_sqrt_not_negative (x : B64.t) :
  B64.ltb (np_power (np_sqrt x) 3) (S754_zero false) = false.
Proof.
  pose proof (sqrt_not_negative x) as H.
  destruct (np_sqrt x) as [s | s | | s m e]; try destruct s;
    try reflexivity; try discriminate H.
  apply round_not_negative.
Qed.

(** C3, amended.  When [Bf] is a zero, cell 6 returns; [L] is the
    infinity of the sign opposite to that of [Bf] whenever [ustar**3]
    is positive, and NaN otherwise. *)
Theorem obukhov_neutral_stratification (g Qp rho0 tau : B64.t) (s : bool) :
  - g * Qp / rho0 = S754_zero s ->
  exists o,
    cell6 g Qp rho0 tau = Return o /\
    Bf o = S754_zero s /\
    (B64.ltb (S754_zero false) (np_power (ustar o) 3) = true ->
     L o = S754_infinity (negb s)) /\
    (B64.ltb (S754_zero false) (np_power (ustar o) 3) = false ->
     L o = S754_nan).
Proof.
  intro HBf. rewrite cell6_returns, HBf, kappa_times_zero.
  eexists. split; [reflexivity |]. cbn [Bf ustar L].
  split; [reflexivity |].
  pose proof (cube_of_sqrt_not_negative (tau / rho0)) as Hsign.
  destruct (np_power (np_sqrt (tau / rho0)) 3) as [s' | s' | | s' m e];
    try destruct s'; try discriminate Hsign;
    split; intro H; try discriminate H; destruct s; reflexivity.
Qed.

(** C6, amended.  Cell 6 returns for every input; whenever
    [tau/rho0] is negative, [ustar] and [L] are NaN. *)
Theorem obukhov_negative_stress (g Qp rho0 tau : B64.t) :
  exists o,
    cell6 g Qp rho0 tau = Return o /\
    (B64.ltb (tau / rho0) (S754_zero false) = true ->
     ustar o = S754_nan /\ L o = S754_nan).
Proof.
  rewrite cell6_returns.
  eexists. split; [reflexivity |]. cbn [ustar L].
  intro Hneg. apply ltb_cases_zero in Hneg.
  destruct Hneg as [-> | [m [e ->]]]; split; reflexivity.
Qed.

End B64Claims.

(** * Binary64 rounding never overflows on small operands *)

Section Rounding.
Local Open Scope Z_scope.

Lemma Zdigits2_log2 (p : positive) :
  Zdigits2 (Zpos p) = Z.log2 (Zpos p) + 1.
Proof.
  assert (H : forall q, digits2_pos q = Pos.size q).
  { induction q as [q IH | q IH |]; simpl; try rewrite IH; reflexivity. }
  simpl. rewrite H. destruct p as [p | p |]; simpl; lia.
Qed.

Lemma Zdigits2_nonneg (m : Z) : 0 <= Zdigits2 m.
Proof. destruct m; simpl; lia. Qed.

Lemma Zdigits2_le (a b : Z) : 0 <= a -> a <= b -> Zdigits2 a <= Zdigits2 b.
Proof.
  intros Ha Hab. destruct a as [| p |]; [apply Zdigits2_nonneg | | lia].
  destruct b as [| q |]; try lia.
  rewrite !Zdigits2_log2. apply Z.add_le_mono_r. apply Z.log2_le_mono. exact Hab.
Qed.

Lemma Zdigits2_succ (a : Z) : 0 <= a -> Zdigits2 (a + 1) <= Zdigits2 a + 1.
Proof.
  intros Ha. destruct a as [| p |]; [simpl; lia | | lia].
  change (Zpos p + 1) with (Zpos (p + 1)).
  rewrite !Zdigits2_log2. rewrite Pos2Z.inj_add.
  pose proof (Z.log2_succ_le (Zpos p)). unfold Z.succ in *. lia.
Qed.

Lemma Zdigits2_mul (p q : positive) :
  Zdigits2 (Zpos (p * q)) <= Zdigits2 (Zpos p) + Zdigits2 (Zpos q).
Proof.
  rewrite !Zdigits2_log2, Pos2Z.inj_mul.
  pose proof (Z.log2_mul_above (Zpos p) (Zpos q)). lia.
Qed.

Lemma Zdigits2_shiftl (p : positive) (s : Z) :
  0 <= s -> Zdigits2 (Z.shiftl (Zpos p) s) = Zdigits2 (Zpos p) + s.
Proof.
  intro Hs.
  assert (Hpos : 0 < Z.shiftl (Zpos p) s).
  { rewrite Z.shiftl_mul_pow2 by exact Hs. apply Z.mul_pos_pos; [lia |].
    apply Z.pow_pos_nonneg; lia. }
  destruct (Z.shiftl (Zpos p) s) as [| r |] eqn:E; try lia.
  rewrite !Zdigits2_log2, <- E, Z.log2_shiftl by lia. lia.
Qed.


Lemma shr_m_of_loc (m : Z) (l : location) : shr_m (shr_record_of_loc m l) = m.
Proof. destruct l as [| []]; reflexivity. Qed.

Lemma shr_1_bounds (mrs : shr_record) :
  0 <= shr_m mrs -> 0 <= shr_m (shr_1 mrs) <= shr_m mrs.
Proof.
  destruct mrs as [m r s]; simpl.
  destruct m as [| [p | p |] | p]; simpl; lia.
Qed.

Lemma iter_shr_1_bounds (p : positive) (mrs : shr_record) :
  0 <= shr_m mrs -> 0 <= shr_m (SpecFloat.iter_pos shr_1 p mrs) <= shr_m mrs.
Proof.
  revert mrs. induction p as [p IH | p IH |]; intros mrs H; simpl.
  - pose proof (shr_1_bounds mrs H) as H1.
    pose proof (IH (shr_1 mrs) (proj1 H1)) as H2.
    pose proof (IH _ (proj1 H2)) as H3. lia.
  - pose proof (IH mrs H) as H1.
    pose proof (IH _ (proj1 H1)) as H2. lia.
  - apply shr_1_bounds. exact H.
Qed.

Lemma shr_fexp_bounds (m e : Z) (l : location) :
  0 <= m ->
  0 <= shr_m (fst (shr_fexp B64.prec B64.emax m e l)) <= m /\
  snd (shr_fexp B64.prec B64.emax m e l)
  = Z.max e (fexp B64.prec B64.emax (Zdigits2 m + e)).
Proof.
  intro Hm. unfold shr_fexp, shr.
  destruct (fexp B64.prec B64.emax (Zdigits2 m + e) - e) as [| p | p] eqn:E;
    simpl fst; simpl snd.
  - rewrite shr_m_of_loc. lia.
  - pose proof (iter_shr_1_bounds p (shr_record_of_loc m l)) as H.
    rewrite shr_m_of_loc in H. split; [apply H; exact Hm | lia].
  - rewrite shr_m_of_loc. lia.
Qed.

Lemma round_nearest_even_bounds (m : Z) (l : location) :
  m <= round_nearest_even m l <= m + 1.
Proof.
  destruct l as [| []]; simpl; try lia.
  destruct (Z.even m); lia.
Qed.

Lemma binary_round_aux_within (s : bool) (m e : Z) (l : location) (D E : Z) :
  0 <= m -> Zdigits2 m <= D -> e <= E -> -1074 <= E ->
  Z.max (Z.max E (D + E - 53)) (D + 1 + Z.max E (D + E - 53) - 53) <= 971 ->
  B64.within (D + 1)
    (Z.max (Z.max E (D + E - 53)) (D + 1 + Z.max E (D + E - 53) - 53))
    (binary_round_aux B64.prec B64.emax s m e l).
Proof.
  intros Hm HD HE Hmin Hmax. unfold binary_round_aux.
  pose proof (shr_fexp_bounds m e l Hm) as [Hm1 He1].
  destruct (shr_fexp B64.prec B64.emax m e l) as [mrs1 e1].
  simpl fst in Hm1; simpl snd in He1.
  pose proof (round_nearest_even_bounds (shr_m mrs1) (loc_of_shr_record mrs1))
    as Hr.
  set (m1 := round_nearest_even (shr_m mrs1) (loc_of_shr_record mrs1)) in *.
  assert (Hm1' : 0 <= m1) by lia.
  pose proof (shr_fexp_bounds m1 e1 loc_Exact Hm1') as [Hm2 He2].
  destruct (shr_fexp B64.prec B64.emax m1 e1 loc_Exact) as [mrs2 e2].
  simpl fst in Hm2; simpl snd in He2.
  assert (Hd1 : Zdigits2 m1 <= D + 1).
  { transitivity (Zdigits2 (shr_m mrs1 + 1)).
    - apply Zdigits2_le; lia.
    - pose proof (Zdigits2_succ (shr_m mrs1) (proj1 Hm1)).
      pose proof (Zdigits2_le (shr_m mrs1) m (proj1 Hm1) (proj2 Hm1)). lia. }
  unfold fexp, SpecFloat.emin, B64.prec, B64.emax in He1, He2.
  assert (He2' : e2 <= Z.max (Z.max E (D + E - 53))
                         (D + 1 + Z.max E (D + E - 53) - 53)) by lia.
  destruct (shr_m mrs2) as [| p | p] eqn:Ep; simpl; try lia; trivial.
  assert (Hfin : (e2 <=? 971) = true) by (apply Z.leb_le; lia).
  rewrite Hfin. unfold B64.within. split; [| exact He2'].
  pose proof (Zdigits2_le (Zpos p) m1). lia.
Qed.


Lemma SFdiv_core_binary_bounds (m1 : positive) (e1 : Z) (m2 : positive) (e2 : Z) :
  let '(q, e', _) :=
    SFdiv_core_binary B64.prec B64.emax (Zpos m1) e1 (Zpos m2) e2 in
  0 <= q /\
  Zdigits2 q <= Z.max (Zdigits2 (Zpos m1)) (Zdigits2 (Zpos m2) + 53) /\
  e' <= e1 - e2.
Proof.
  unfold SFdiv_core_binary.
  set (d1 := Zdigits2 (Zpos m1)). set (d2 := Zdigits2 (Zpos m2)).
  set (e' := Z.min (fexp B64.prec B64.emax (d1 + e1 - (d2 + e2))) (e1 - e2)).
  set (s := e1 - e2 - e').
  set (m' := match s with
             | Zpos _ => Z.shiftl (Zpos m1) s
             | Z0 => Zpos m1
             | Zneg _ => Z0
             end).
  assert (Hs : 0 <= s /\ s <= Z.max 0 (d2 - d1 + 53)).
  { unfold s, e', fexp, SpecFloat.emin, B64.prec, B64.emax. lia. }
  assert (Hm' : 0 <= m' /\ Zdigits2 m' <= Z.max d1 (d2 + 53)).
  { unfold m'. destruct s as [| p | p] eqn:Es.
    - fold d1. lia.
    - rewrite Zdigits2_shiftl by lia. fold d1. split; [| lia].
      apply Z.shiftl_nonneg. lia.
    - lia. }
  destruct (Z.div_eucl m' (Zpos m2)) as [q r] eqn:Ediv.
  assert (Hq : q = m' / Zpos m2) by (unfold Z.div; rewrite Ediv; reflexivity).
  assert (Hq0 : 0 <= q) by (rewrite Hq; apply Z.div_pos; lia).
  assert (Hqm : q <= m').
  { rewrite Hq. apply Z.div_le_upper_bound; [lia | nia]. }
  split; [exact Hq0 |]. split; [| unfold e'; lia].
  pose proof (Zdigits2_le q m' Hq0 Hqm). lia.
Qed.


Lemma within_weaken (D E D' E' : Z) (x : spec_float) :
  D <= D' -> E <= E' -> B64.within D E x -> B64.within D' E' x.
Proof. destruct x; simpl; trivial. lia. Qed.

Lemma valid_digits (s : bool) (m : positive) (e : Z) :
  B64.valid (S754_finite s m e) = true -> Zdigits2 (Zpos m) <= 53.
Proof.
  unfold B64.valid, valid_binary, bounded, canonical_mantissa.
  intro H. apply andb_prop in H. destruct H as [H _].
  apply Z.eqb_eq in H.
  change (Zpos (digits2_pos m)) with (Zdigits2 (Zpos m)) in H.
  unfold fexp, SpecFloat.emin, B64.prec, B64.emax in H. lia.
Qed.

Lemma leb_eight_exponent (m : positive) (e : Z) :
  B64.leb (S754_finite false m e) (lit 80 1) = true -> e <= -49.
Proof.
  change (lit (F:=B64.t) 80 1)
    with (S754_finite false 4503599627370496 (-49)).
  unfold B64.leb, SFleb, SFcompare.
  destruct (Z.compare_spec e (-49)) as [E | E | E]; intro H;
    try lia; discriminate H.
Qed.

(** The cloud fraction of a cloud cover in [0, 8] is small. *)
Lemma cloud_fraction_within (c : B64.t) :
  B64.valid c = true ->
  B64.leb (lit 0 1) c = true ->
  B64.leb c (lit 80 1) = true ->
  B64.within 107 107 (div c (lit 80 1)).
Proof.
  intros Hv H0 H8.
  destruct c as [s | s | | s m e].
  - destruct s; exact I.
  - destruct s; discriminate.
  - discriminate.
  - destruct s; [discriminate |].
    pose proof (valid_digits _ _ _ Hv) as Hd.
    pose proof (leb_eight_exponent _ _ H8) as He.
    change (div (S754_finite false m e) (lit 80 1))
      with (let '(mz, ez, lz) :=
              SFdiv_core_binary B64.prec B64.emax (Zpos m) e
                (Zpos 4503599627370496) (-49) in
            binary_round_aux B64.prec B64.emax false mz ez lz).
    pose proof (SFdiv_core_binary_bounds m e 4503599627370496 (-49)) as Hc.
    destruct (SFdiv_core_binary B64.prec B64.emax (Zpos m) e
                (Zpos 4503599627370496) (-49)) as [[q e'] l].
    destruct Hc as [Hq [Hdq He']].
    change (Zdigits2 (Zpos 4503599627370496)) with 53 in Hdq.
    apply (within_weaken (106 + 1)
             (Z.max (Z.max 0 (106 + 0 - 53))
                (106 + 1 + Z.max 0 (106 + 0 - 53) - 53)));
      [lia | lia |].
    apply binary_round_aux_within; lia.
Qed.

Lemma cube_within (x : B64.t) :
  B64.within 107 107 x -> B64.within 322 858 (B64.pow x 3).
Proof.
  destruct x as [s | s | | s m e]; unfold B64.within at 1; try tauto.
  intros [Hd He]. unfold B64.pow.
  assert (Hm : Zdigits2 (Zpos (m ^ 3)) <= 321).
  { replace (m ^ 3)%positive with (m * (m * m))%positive by lia.
    pose proof (Zdigits2_mul m (m * m)).
    pose proof (Zdigits2_mul m m). lia. }
  apply (within_weaken (321 + 1)
           (Z.max (Z.max 321 (321 + 321 - 53))
              (321 + 1 + Z.max 321 (321 + 321 - 53) - 53)));
    [lia | lia |].
  apply binary_round_aux_within; lia.
Qed.

Lemma within_not_infinity (D E : Z) (x : B64.t) :
  B64.within D E x -> B64.is_infinity x = false.
Proof. destruct x; simpl; tauto. Qed.

Lemma float_pow_cloud_fraction (c : B64.t) :
  B64.valid c = true ->
  B64.leb (lit 0 1) c = true ->
  B64.leb c (lit 80 1) = true ->
  float_pow (div c (lit 80 1)) 3 = Return (B64.pow (div c (lit 80 1)) 3).
Proof.
  intros Hv H0 H8.
  pose proof (cube_within _ (cloud_fraction_within c Hv H0 H8)) as Hw.
  apply within_not_infinity in Hw.
  change (float_pow (div c (lit 80 1)) 3)
    with (B64.py_float_pow (div c (lit 80 1)) 3).
  unfold B64.py_float_pow. rewrite Hw, andb_false_r. reflexivity.
Qed.

End Rounding.

Section B64Shortwave.

Local Open Scope arith_scope.

(** C7, amended.  For a binary64 cloud cover in [0, 8] the shortwave
    stage returns a value, whatever the clear-sky irradiance; the stage
    checks no range, and the only exception it can raise, for any input,
    is the [OverflowError] of [Cfrac**3]. *)
Theorem shortwave_returns_on_oktas (c Q : B64.t) :
  B64.valid c = true ->
  B64.leb (lit 0 1) c = true ->
  B64.leb c (lit 80 1) = true ->
  (exists sw, cell3_shortwave c Q = Return sw) /\
  (forall (c' Q' : B64.t) (e : exn),
     cell3_shortwave c' Q' = Raise e -> e = OverflowError).
Proof.
  intros Hv H0 H8. split.
  - unfold cell3_shortwave.
    rewrite (float_pow_cloud_fraction c Hv H0 H8). simpl bind.
    eexists. reflexivity.
  - intros c' Q' e H. apply cell3_shortwave_Raise in H.
    change (B64.py_float_pow (c' / lit 80 1) 3 = Raise e) in H.
    unfold B64.py_float_pow in H.
    destruct (B64.is_finite (c' / lit 80 1)
              && B64.is_infinity (B64.pow (c' / lit 80 1) 3));
      now inversion H.
Qed.

End B64Shortwave.

(** * Runs on concrete binary64 inputs *)

Section B64Examples.

Local Open Scope arith_scope.

(** C3, counterexample.  With no wind stress ([tau = 0.0]) and no
    density flux ([Qp = 0.0]), [Bf] is [-0.0] and [L] is NaN, not an
    infinity. *)
Lemma obukhov_neutral_calm_is_nan :
  B64.leb (lit 0 1) (lit 0 1) = true /\
  cell6 (lit 981 2) (lit 0 1) (lit 10250 1) (lit 0 1)
  = Return {| Bf := S754_zero true; ustar := S754_zero false;
              kappa := B64.of_float 0.4; L := S754_nan |}.
Proof. vm_compute. split; reflexivity. Qed.

(** C6, counterexample.  With [tau = -1.0] cell 6 returns: nothing is
    raised, [ustar] and [L] are NaN. *)
Lemma obukhov_negative_stress_returns_nan :
  B64.ltb (lit (-10) 1) (lit 0 1) = true /\
  cell6 (lit 981 2) (lit 1 5) (lit 10250 1) (lit (-10) 1)
  = Return {| Bf := B64.of_float (-9.570731707317074e-08);
              ustar := S754_nan;
              kappa := B64.of_float 0.4; L := S754_nan |} /\
  cell6 (lit 981 2) (lit 1 5) (lit 10250 1) (lit (-10) 1)
  <> Raise (Custom "InvalidInput").
Proof. vm_compute. repeat split. discriminate. Qed.

(** C7, counterexample.  At 9 oktas, outside [0, 8], the stage returns a
    negative irradiance instead of failing. *)
Lemma shortwave_accepts_nine_oktas :
  B64.leb (lit 90 1) (lit 80 1) = false /\
  cell3_shortwave (lit 90 1) (lit 9700 1)
  = Return {| Cfrac := B64.of_float 1.125;
              albedo := B64.of_float 0.06;
              Qshortwave := B64.of_float (-386.44648437499995) |} /\
  cell3_shortwave (lit 90 1) (lit 9700 1) <> Raise (Custom "InvalidInput").
Proof. vm_compute. repeat split. discriminate. Qed.

(** C9, counterexample.  In binary64 a rain rate of 57.0 mm/hour divided
    by 3600 and multiplied by 3600 is 57.00000000000001. *)
Lemma unit_conversion_round_trip_inexact :
  exists d,
    cell5 (lit 570 1) (lit 570 1) (lit 34585 3) (lit 301 0) (lit 10250 1)
      (lit 40700 1) (lit 230 1) (lit 11 5) (lit 77 5) = Return d /\
    precip d = B64.of_float 0.015833333333333335 /\
    precip d * lit 3600 0 = B64.of_float 57.00000000000001 /\
    precip d * lit 3600 0 <> lit 570 1.
Proof.
  eexists. split; [apply cell5_returns |].
  vm_compute. repeat split. discriminate.
Qed.

(** The notebook on the observation of cell 2, with the collaborators of
    [Recorded]: the six values print, under [%5.2f] and [%10.9f], as the
    recorded [4.07], [-57.00], [18.35], [266.38], [-0.000000109] and
    [4.69]. *)
Example recorded_run :
  Recorded.run cell2
  = Return {| sensible_heat_flux := B64.of_float 4.07;
              latent_heat_flux := B64.of_float (-57.0);
              net_longwave_radiation := B64.of_float 18.35;
              net_heat_flux := B64.of_float 266.380234375;
              buoyancy_flux := B64.of_float (-1.0892092121600451e-07);
              obukhov_length := B64.of_float 4.690137048486181 |}.
Proof. vm_compute. reflexivity. Qed.

Lemma obukhov_neutral_stratification_witness :
  exists o,
    cell6 (lit 981 2) (lit 0 1) (lit 10250 1) (lit 1 1) = Return o /\
    Bf o = S754_zero true /\
    L o = S754_infinity false.
Proof.
  destruct (obukhov_neutral_stratification
              (lit 981 2) (lit 0 1) (lit 10250 1) (lit 1 1) true)
    as [o [Ho [HB [Hinf _]]]].
  - reflexivity.
  - exists o. split; [exact Ho |]. split; [exact HB |].
    apply Hinf. rewrite cell6_returns in Ho. inversion Ho. reflexivity.
Defined.

Lemma obukhov_negative_stress_witness :
  exists o,
    cell6 (lit 981 2) (lit 1 5) (lit 10250 1) (lit (-10) 1) = Return o /\
    ustar o = S754_nan /\ L o = S754_nan.
Proof.
  destruct (obukhov_negative_stress
              (lit 981 2) (lit 1 5) (lit 10250 1) (lit (-10) 1))
    as [o [Ho Hnan]].
  exists o. split; [exact Ho |]. apply Hnan. reflexivity.
Defined.

Lemma shortwave_returns_on_oktas_witness :
  (exists sw, cell3_shortwave (lit 70 1) (lit 9700 1) = Return sw) /\
  (forall (c' Q' : B64.t) (e : exn),
     cell3_shortwave c' Q' = Raise e -> e = OverflowError).
Proof.
  apply (shortwave_returns_on_oktas (lit 70 1) (lit 9700 1)); reflexivity.
Defined.

Lemma summary_positive_into_ocean_witness :
  exists d ob,
    cell5 (lit 828 4) (rain cell2) (lit 34585 3)
      (B64.of_float 300.96523437499997) (rho0 cell2) (lit 40700 1)
      (surfaceSalinity cell2) (lit 11 5) (lit 77 5) = Return d /\
    cell6 (g cell2) (Qp d) (rho0 cell2) (lit 3556 5) = Return ob /\
    Qnet d = - lit 34585 3 + B64.of_float 300.96523437499997 /\
    Bf ob = - g cell2 * Qp d / rho0 cell2 /\
    Recorded.run cell2
    = Return {| sensible_heat_flux := - lit (-407) 2;
                latent_heat_flux := - lit 570 1;
                net_longwave_radiation := - lit (-1835) 2;
                net_heat_flux := Qnet d;
                buoyancy_flux := Bf ob;
                obukhov_length := L ob |}.
Proof.
  apply (summary_positive_into_ocean Recorded.coare35vn
           Recorded.gsw_alpha Recorded.gsw_beta Recorded.gsw_cp_t_exact
           cell2
           {| Cfrac := B64.of_float 0.875; albedo := lit 6 2;
              Qshortwave := B64.of_float 300.96523437499997 |}
           {| alpha := lit 11 5; beta := lit 77 5; Cp := lit 40700 1 |}
           (lit 3556 5) (lit (-407) 2) (lit 570 1) (lit (-1835) 2)
           (lit 34585 3) (lit 828 4) []);
    vm_compute; reflexivity.
Defined.

Lemma albedo_fixed_at_0_06_witness :
  exists sw b,
    cell3 Recorded.coare35vn cell2 = Return (sw, b) /\
    albedo sw = lit 6 2 /\
    Qshortwave sw = B64.of_float 300.96523437499997.
Proof.
  eexists. eexists.
  assert (H3 : cell3 Recorded.coare35vn cell2 = Return (_, _))
    by (vm_compute; reflexivity).
  destruct (albedo_fixed_at_0_06 Recorded.coare35vn cell2 _ _ H3)
    as [Ha _].
  split; [exact H3 |]. split; [exact Ha |]. vm_compute. reflexivity.
Defined.

End B64Examples.

(** * Exact arithmetic: how the stages compose *)

Section ExactComposition.

Local Open Scope R_scope.

Lemma density_flux_expression
  (E P Qnet rho0 Cp S alpha beta : R) :
  rho0 <> 0 -> Cp <> 0 -> S <> 1000 ->
  rho0 * (alpha * (- Qnet / (rho0 * Cp))
          + beta * ((E / 3600 - P / 3600) / (1 - S / 1000)))
  = - alpha * Qnet / Cp + rho0 * beta * (E - P) / (3600 * (1 - S / 1000)).
Proof. intros Hrho HCp HS. field. repeat split; lra. Qed.

Lemma buoyancy_flux_expression
  (E P Qnet rho0 Cp S alpha beta g : R) :
  rho0 <> 0 -> Cp <> 0 -> S <> 1000 ->
  - g * (- alpha * Qnet / Cp
         + rho0 * beta * (E - P) / (3600 * (1 - S / 1000))) / rho0
  = g * alpha * Qnet / (rho0 * Cp)
    - g * beta * (E - P) / (3600 * (1 - S / 1000)).
Proof. intros Hrho HCp HS. field. repeat split; lra. Qed.

(** X5.  In exact arithmetic, for nonzero reference density and [Cp] and
    a salinity other than 1000, cells 5 and 6 give
    [Qp = -alpha*Qnet/Cp + rho0*beta*(evaporation-rain)/(3600*(1-S/1000))]
    and
    [Bf = g*alpha*Qnet/(rho0*Cp) - g*beta*(evaporation-rain)/(3600*(1-S/1000))]:
    the thermal part of the density flux does not depend on the reference
    density, the haline part of the buoyancy flux does not either. *)
Theorem density_and_buoyancy_closed_form
  (evaporation rain QnetMinusSW Qshortwave rho0 Cp surfaceSalinity
   alpha beta g tau : R) :
  rho0 <> 0 -> Cp <> 0 -> surfaceSalinity <> 1000 ->
  exists d ob,
    cell5 evaporation rain QnetMinusSW Qshortwave rho0 Cp surfaceSalinity
      alpha beta = Return d /\
    cell6 g (Qp d) rho0 tau = Return ob /\
    Qnet d = Qshortwave - QnetMinusSW /\
    Qp d = - alpha * Qnet d / Cp
           + rho0 * beta * (evaporation - rain)
             / (3600 * (1 - surfaceSalinity / 1000)) /\
    Bf ob = g * alpha * Qnet d / (rho0 * Cp)
            - g * beta * (evaporation - rain)
              / (3600 * (1 - surfaceSalinity / 1000)).
Proof.
  intros Hrho HCp HS.
  rewrite cell5_returns, lit_3600, lit_1, lit_1000.
  eexists. eexists. split; [reflexivity |]. cbn [Qp Qnet].
  rewrite cell6_returns.
  split; [reflexivity |]. cbn [Bf]. simpl.
  rewrite density_flux_expression by assumption.
  split; [ring |]. split; [reflexivity |].
  apply buoyancy_flux_expression; assumption.
Qed.

(** X6.  In exact arithmetic, with positive gravity, reference density,
    [Cp] and [alpha], nonnegative [beta] and salinity below 1000: a net
    heat flux into the ocean with no more evaporation than rain makes the
    density flux negative and the buoyancy flux positive; a net heat
    flux out of the ocean with no less evaporation than rain makes the
    density flux positive and the buoyancy flux negative. *)
Theorem buoyancy_flux_sign
  (evaporation rain QnetMinusSW Qshortwave rho0 Cp surfaceSalinity
   alpha beta g tau : R) :
  0 < g -> 0 < rho0 -> 0 < Cp -> 0 < alpha -> 0 <= beta ->
  surfaceSalinity < 1000 ->
  exists d ob,
    cell5 evaporation rain QnetMinusSW Qshortwave rho0 Cp surfaceSalinity
      alpha beta = Return d /\
    cell6 g (Qp d) rho0 tau = Return ob /\
    (QnetMinusSW < Qshortwave -> evaporation <= rain ->
     0 < Qnet d /\ Qp d < 0 /\ 0 < Bf ob) /\
    (Qshortwave < QnetMinusSW -> rain <= evaporation ->
     Qnet d < 0 /\ 0 < Qp d /\ Bf ob < 0).
Proof.
  intros Hg Hrho HCp Ha Hb HS.
  rewrite cell5_returns, lit_3600, lit_1, lit_1000.
  eexists. eexists. split; [reflexivity |]. cbn [Qp Qnet].
  rewrite cell6_returns.
  split; [reflexivity |]. cbn [Bf]. simpl.
  rewrite density_flux_expression by lra.
  rewrite buoyancy_flux_expression by lra.
  replace (- QnetMinusSW + Qshortwave) with (Qshortwave - QnetMinusSW)
    by ring.
  assert (Hden : 0 < 3600 * (1 - surfaceSalinity / 1000)) by lra.
  assert (Hi1 : 0 < / Cp) by (apply Rinv_0_lt_compat; exact HCp).
  assert (Hi2 : 0 < / (3600 * (1 - surfaceSalinity / 1000)))
    by (apply Rinv_0_lt_compat; exact Hden).
  assert (Hi3 : 0 < / (rho0 * Cp))
    by (apply Rinv_0_lt_compat; apply Rmult_lt_0_compat; assumption).
  unfold Rdiv.
  split; intros Hheat Hwater.
  - assert (0 < alpha * (Qshortwave - QnetMinusSW) * / Cp)
      by (apply Rmult_lt_0_compat; [apply Rmult_lt_0_compat |]; lra).
    assert (rho0 * beta * (evaporation - rain)
            * / (3600 * (1 - surfaceSalinity / 1000)) <= 0).
    { assert (0 <= rho0 * beta * (rain - evaporation)
                    * / (3600 * (1 - surfaceSalinity / 1000))).
      { apply Rmult_le_pos; [| lra].
        apply Rmult_le_pos; [| lra]. apply Rmult_le_pos; lra. }
      nra. }
    assert (0 < g * alpha * (Qshortwave - QnetMinusSW) * / (rho0 * Cp)).
    { apply Rmult_lt_0_compat; [| lra].
      apply Rmult_lt_0_compat; [| lra]. apply Rmult_lt_0_compat; lra. }
    assert (g * beta * (evaporation - rain)
            * / (3600 * (1 - surfaceSalinity / 1000)) <= 0).
    { assert (0 <= g * beta * (rain - evaporation)
                    * / (3600 * (1 - surfaceSalinity / 1000))).
      { apply Rmult_le_pos; [| lra].
        apply Rmult_le_pos; [| lra]. apply Rmult_le_pos; lra. }
      nra. }
    repeat split; lra.
  - assert (0 < alpha * (QnetMinusSW - Qshortwave) * / Cp)
      by (apply Rmult_lt_0_compat; [apply Rmult_lt_0_compat |]; lra).
    assert (0 <= rho0 * beta * (evaporation - rain)
                 * / (3600 * (1 - surfaceSalinity / 1000))).
    { apply Rmult_le_pos; [| lra].
      apply Rmult_le_pos; [| lra]. apply Rmult_le_pos; lra. }
    assert (0 < g * alpha * (QnetMinusSW - Qshortwave) * / (rho0 * Cp)).
    { apply Rmult_lt_0_compat; [| lra].
      apply Rmult_lt_0_compat; [| lra]. apply Rmult_lt_0_compat; lra. }
    assert (0 <= g * beta * (evaporation - rain)
                 * / (3600 * (1 - surfaceSalinity / 1000))).
    { apply Rmult_le_pos; [| lra].
      apply Rmult_le_pos; [| lra]. apply Rmult_le_pos; lra. }
    repeat split; nra.
Qed.

(** X7.  In exact arithmetic, for positive wind stress and reference
    density and a nonzero buoyancy flux, the friction velocity gives the
    stress back ([rho0 * ustar^2 = tau]), and the Obukhov length has the
    sign opposite to that of the buoyancy flux, with
    [L * Bf = -ustar^3 / 0.4]. *)
Theorem obukhov_length_sign (g Qp rho0 tau : R) :
  0 < tau -> 0 < rho0 -> - g * Qp / rho0 <> 0 ->
  exists ob,
    cell6 g Qp rho0 tau = Return ob /\
    0 < ustar ob /\
    rho0 * (ustar ob) ^ 2 = tau /\
    L ob * Bf ob = - (ustar ob) ^ 3 / (4 / 10) /\
    L ob * Bf ob < 0 /\
    (0 < Bf ob -> L ob < 0) /\
    (Bf ob < 0 -> 0 < L ob).
Proof.
  intros Htau Hrho HBf.
  rewrite cell6_returns, lit_0_4.
  eexists. split; [reflexivity |]. cbn [ustar Bf L]. simpl.
  set (B := - g * Qp / rho0) in *.
  assert (Hq : 0 < tau / rho0) by (apply Rdiv_lt_0_compat; assumption).
  pose proof (sqrt_lt_R0 _ Hq) as Hu.
  pose proof (sqrt_sqrt (tau / rho0) (Rlt_le _ _ Hq)) as Hsq.
  set (u := sqrt (tau / rho0)) in *.
  assert (Hu3 : 0 < u * (u * (u * 1)))
    by (repeat apply Rmult_lt_0_compat; lra).
  assert (HLB : - (u * (u * (u * 1))) / (4 / 10 * B) * B
                = - (u * (u * (u * 1))) / (4 / 10))
    by (field; exact HBf).
  split; [exact Hu |].
  split; [rewrite Rmult_1_r, Hsq; field; lra |].
  split; [exact HLB |].
  assert (Hneg : - (u * (u * (u * 1))) / (4 / 10 * B) * B < 0)
    by (rewrite HLB; lra).
  split; [exact Hneg |].
  split; intro HB; nra.
Qed.

End ExactComposition.

(** * Binary64 arithmetic: divisions by zero and values that are not
      numbers pass silently *)

Section B64Silent.

Variable coare35vn : CoareArgs B64.t -> result (list (list B64.t)).
Variable gsw_alpha gsw_beta gsw_cp_t_exact :
  B64.t -> B64.t -> B64.t -> result B64.t.
Local Open Scope arith_scope.

Lemma div_by_zero_not_finite (x : B64.t) (s : bool) :
  B64.is_finite (x / S754_zero s) = false.
Proof. destruct x as [sx | sx | | sx m e]; reflexivity. Qed.

Lemma mul_not_finite_r (x y : B64.t) :
  B64.is_finite y = false -> B64.is_finite (x * y) = false.
Proof.
  destruct y as [sy | sy | | sy my ey]; try discriminate;
    destruct x as [sx | sx | | sx mx ex]; reflexivity.
Qed.

Lemma mul_not_finite_l (x y : B64.t) :
  B64.is_finite x = false -> B64.is_finite (x * y) = false.
Proof.
  destruct x as [sx | sx | | sx mx ex]; try discriminate;
    destruct y as [sy | sy | | sy my ey]; reflexivity.
Qed.

Lemma add_not_finite_r (x y : B64.t) :
  B64.is_finite y = false -> B64.is_finite (x + y) = false.
Proof.
  destruct y as [sy | sy | | sy my ey]; try discriminate;
    destruct x as [sx | sx | | sx mx ex]; try reflexivity;
    destruct sx, sy; reflexivity.
Qed.

Lemma add_not_finite_l (x y : B64.t) :
  B64.is_finite x = false -> B64.is_finite (x + y) = false.
Proof.
  destruct x as [sx | sx | | sx mx ex]; try discriminate;
    destruct y as [sy | sy | | sy my ey]; try reflexivity;
    destruct sx, sy; reflexivity.
Qed.

Lemma div_not_finite_l (x y : B64.t) :
  B64.is_finite x = false -> B64.is_finite (x / y) = false.
Proof.
  destruct x as [sx | sx | | sx mx ex]; try discriminate;
    destruct y as [sy | sy | | sy my ey]; reflexivity.
Qed.

Lemma neg_not_finite (x : B64.t) :
  B64.is_finite x = false -> B64.is_finite (- x) = false.
Proof. destruct x; try discriminate; reflexivity. Qed.

(** X10.  In binary64 cell 5 divides by zero without raising.  With a
    salinity of exactly 1000.0 the divisor [1-surfaceSalinity/1000] is
    [0.0] and [Fs] is an infinity or NaN; when [rho0*Cp] is a zero, [Ft]
    is an infinity or NaN; in both cases [Qp] is an infinity or NaN. *)
Theorem density_flux_silent_division_by_zero
  (evaporation rain QnetMinusSW Qshortwave rho0 Cp surfaceSalinity
   alpha beta : B64.t) :
  exists d,
    cell5 evaporation rain QnetMinusSW Qshortwave rho0 Cp surfaceSalinity
      alpha beta = Return d /\
    (surfaceSalinity = lit 10000 1 ->
     B64.is_finite (Fs d) = false /\ B64.is_finite (Qp d) = false) /\
    (forall s, rho0 * Cp = S754_zero s ->
     B64.is_finite (Ft d) = false /\ B64.is_finite (Qp d) = false).
Proof.
  rewrite cell5_returns. eexists. split; [reflexivity |]. cbn [Fs Ft Qp].
  split.
  - intros ->.
    change (lit 1 0 - lit 10000 1 / lit 1000 0) with (S754_zero false).
    split.
    + apply div_by_zero_not_finite.
    + apply mul_not_finite_r, add_not_finite_r, mul_not_finite_r,
        div_by_zero_not_finite.
  - intros s ->. split.
    + apply div_by_zero_not_finite.
    + apply mul_not_finite_r, add_not_finite_l, mul_not_finite_r,
        div_by_zero_not_finite.
Qed.

(** X11.  In binary64, with a reference density of [0.0] or [-0.0] cell 6
    raises nothing: [Bf] and [ustar] are infinities or NaN and [L] is
    NaN, whatever the other inputs. *)
Theorem obukhov_zero_reference_density (g Qp tau : B64.t) (s : bool) :
  exists ob,
    cell6 g Qp (S754_zero s) tau = Return ob /\
    B64.is_finite (Bf ob) = false /\
    B64.is_finite (ustar ob) = false /\
    L ob = S754_nan.
Proof.
  rewrite cell6_returns. eexists. split; [reflexivity |]. cbn [Bf ustar L].
  split; [apply div_by_zero_not_finite |].
  assert (Hu : np_sqrt (tau / S754_zero s) = S754_nan \/
               np_sqrt (tau / S754_zero s) = S754_infinity false).
  { destruct tau as [st | st | | st m e]; destruct s; try destruct st;
      simpl; auto. }
  assert (HB : - g * Qp / S754_zero s = S754_nan \/
               exists sb, - g * Qp / S754_zero s = S754_infinity sb).
  { pose proof (div_by_zero_not_finite (- g * Qp) s) as H.
    destruct (- g * Qp / S754_zero s) as [sb | sb | | sb m e];
      try discriminate H; eauto. }
  split.
  - destruct Hu as [-> | ->]; reflexivity.
  - destruct Hu as [-> | ->]; destruct HB as [-> | [sb ->]];
      try reflexivity; destruct sb; reflexivity.
Qed.

Lemma nan_neg : @neg B64.t _ S754_nan = S754_nan.
Proof. reflexivity. Qed.

Lemma nan_add_l (x : B64.t) : S754_nan + x = S754_nan.
Proof. reflexivity. Qed.

Lemma nan_add_r (x : B64.t) : x + S754_nan = S754_nan.
Proof. destruct x; reflexivity. Qed.

Lemma nan_mul_r (x : B64.t) : x * S754_nan = S754_nan.
Proof. destruct x; reflexivity. Qed.

Lemma nan_div_l (x : B64.t) : S754_nan / x = S754_nan.
Proof. reflexivity. Qed.

Lemma nan_div_r (x : B64.t) : x / S754_nan = S754_nan.
Proof. destruct x; reflexivity. Qed.

(** X12.  In binary64 a NaN from the estimator is passed on, not
    reported: whenever cells 3 and 4 return, the notebook returns; if
    [QnetMinusSW] is NaN then the net heat flux, the buoyancy flux and
    the Obukhov length of the summary are NaN, and if [tau] is NaN then
    the Obukhov length is NaN. *)
Theorem notebook_passes_nan_on
  (o : Observation B64.t) (sw : Shortwave B64.t) (b : Bulk B64.t)
  (c : Coefficients B64.t) :
  cell3 coare35vn o = Return (sw, b) ->
  cell4 gsw_alpha gsw_beta gsw_cp_t_exact o = Return c ->
  exists s,
    notebook coare35vn gsw_alpha gsw_beta gsw_cp_t_exact o = Return s /\
    (QnetMinusSW b = S754_nan ->
     net_heat_flux s = S754_nan /\ buoyancy_flux s = S754_nan /\
     obukhov_length s = S754_nan) /\
    (tau b = S754_nan -> obukhov_length s = S754_nan).
Proof.
  intros H3 H4. unfold notebook. rewrite H3, H4. cbn [bind].
  rewrite cell5_returns. cbn [bind]. rewrite cell6_returns. cbn [bind].
  eexists. split; [reflexivity |].
  cbn [cell7 net_heat_flux buoyancy_flux obukhov_length Qnet Qp Bf L fst snd].
  split.
  - intros ->.
    repeat first [rewrite nan_neg | rewrite nan_add_l | rewrite nan_div_l
                 | rewrite nan_mul_r | rewrite nan_div_r].
    repeat split.
  - intros ->. rewrite nan_div_l. reflexivity.
Qed.

(** X13.  In binary64 a cloud cover that is NaN or an infinity raises
    nothing ([OverflowError] needs a finite base): the shortwave stage
    returns and [Qshortwave] is an infinity or NaN. *)
Theorem shortwave_cloud_cover_not_finite (c Q : B64.t) :
  B64.is_finite c = false ->
  exists sw,
    cell3_shortwave c Q = Return sw /\
    B64.is_finite (Qshortwave sw) = false.
Proof.
  intro Hc. unfold cell3_shortwave.
  destruct c as [s | s | | s m e]; try discriminate Hc.
  - destruct s; simpl bind; (eexists; split; [reflexivity |]);
      cbn [Qshortwave]; apply mul_not_finite_r; reflexivity.
  - simpl bind. eexists. split; [reflexivity |].
    cbn [Qshortwave]. apply mul_not_finite_r. reflexivity.
Qed.

End B64Silent.

(** * Binary64 rounding of large operands *)

Section RoundingLarge.

Local Open Scope Z_scope.

Lemma shr_1_div2 (mrs : shr_record) :
  0 <= shr_m mrs -> shr_m (shr_1 mrs) = Z.div2 (shr_m mrs).
Proof.
  destruct mrs as [m r s]; simpl.
  destruct m as [| [p | p |] | p]; simpl; try reflexivity; lia.
Qed.

Lemma iter_shr_1_shiftr (p : positive) (mrs : shr_record) :
  0 <= shr_m mrs ->
  shr_m (SpecFloat.iter_pos shr_1 p mrs) = Z.shiftr (shr_m mrs) (Zpos p).
Proof.
  revert mrs. induction p as [p IH | p IH |]; intros mrs H; simpl SpecFloat.iter_pos.
  - pose proof (shr_1_bounds mrs H) as H1.
    pose proof (iter_shr_1_bounds p (shr_1 mrs) (proj1 H1)) as H2.
    rewrite IH by lia. rewrite IH by lia. rewrite shr_1_div2 by exact H.
    rewrite Z.div2_spec, !Z.shiftr_shiftr by lia.
    f_equal. lia.
  - pose proof (iter_shr_1_bounds p mrs H) as H1.
    rewrite IH by lia. rewrite IH by exact H.
    rewrite Z.shiftr_shiftr by lia. f_equal. lia.
  - rewrite shr_1_div2 by exact H. apply Z.div2_spec.
Qed.

Lemma shr_fexp_shiftr (m e : Z) (l : location) :
  0 <= m ->
  shr_m (fst (shr_fexp B64.prec B64.emax m e l))
  = Z.shiftr m (Z.max 0 (fexp B64.prec B64.emax (Zdigits2 m + e) - e)).
Proof.
  intro Hm. unfold shr_fexp, shr.
  destruct (fexp B64.prec B64.emax (Zdigits2 m + e) - e) as [| p | p] eqn:E;
    simpl fst.
  - rewrite shr_m_of_loc. reflexivity.
  - rewrite iter_shr_1_shiftr by (rewrite shr_m_of_loc; exact Hm).
    rewrite shr_m_of_loc. reflexivity.
  - rewrite shr_m_of_loc. reflexivity.
Qed.

Lemma Zdigits2_pos_iff (m : Z) : 0 <= m -> (0 < m <-> 1 <= Zdigits2 m).
Proof. destruct m; simpl; lia. Qed.

Lemma Zdigits2_shiftr (m n : Z) :
  0 < m -> 0 <= n -> Zdigits2 (Z.shiftr m n) = Z.max 0 (Zdigits2 m - n).
Proof.
  intros Hm Hn. destruct m as [| p |]; try lia.
  rewrite (Zdigits2_log2 p).
  destruct (Z.le_gt_cases n (Z.log2 (Zpos p))) as [Hle | Hgt].
  - assert (Hpos : 0 < Z.shiftr (Zpos p) n).
    { destruct (Z.shiftr_eq_0_iff (Zpos p) n) as [H1 _].
      pose proof (Z.shiftr_nonneg (Zpos p) n) as Hnn.
      destruct (Z.eq_dec (Z.shiftr (Zpos p) n) 0) as [E | E]; [| lia].
      destruct (H1 E) as [H | [_ H]]; lia. }
    destruct (Z.shiftr (Zpos p) n) as [| q |] eqn:E; try lia.
    rewrite Zdigits2_log2, <- E, Z.log2_shiftr by lia. lia.
  - rewrite Z.shiftr_eq_0 by lia. change (Zdigits2 0) with 0. lia.
Qed.

(** Rounding a positive mantissa whose value is in the normal range:
    the result is finite, of at least the size of the operand, or an
    infinity when the exponent would exceed the largest one. *)
Lemma binary_round_aux_shape (s : bool) (m e : Z) (l : location) :
  0 < m -> -1074 <= Zdigits2 m + e - 53 ->
  match binary_round_aux B64.prec B64.emax s m e l with
  | S754_finite _ m' e' =>
      Zdigits2 m + e <= Zdigits2 (Zpos m') + e' /\
      Z.max e (Zdigits2 m + e - 53) <= e' <= 971
  | S754_infinity _ => 971 < Z.max e (Zdigits2 m + e - 53) + 1
  | _ => False
  end.
Proof.
  intros Hm Hn. unfold binary_round_aux.
  assert (Hm0 : 0 <= m) by lia.
  pose proof (shr_fexp_bounds m e l Hm0) as [_ He1].
  pose proof (shr_fexp_shiftr m e l Hm0) as Hs1.
  destruct (shr_fexp B64.prec B64.emax m e l) as [mrs1 e1].
  simpl fst in Hs1; simpl snd in He1.
  pose proof (round_nearest_even_bounds (shr_m mrs1) (loc_of_shr_record mrs1))
    as Hr.
  set (m1 := round_nearest_even (shr_m mrs1) (loc_of_shr_record mrs1)) in *.
  clearbody m1.
  unfold fexp, SpecFloat.emin, B64.prec, B64.emax in He1, Hs1.
  assert (Hd1 : Zdigits2 (shr_m mrs1)
                = Z.max 0 (Zdigits2 m - Z.max 0 (Zdigits2 m - 53))).
  { rewrite Hs1, Zdigits2_shiftr by lia. lia. }
  pose proof (proj1 (Zdigits2_pos_iff m Hm0) Hm) as Hdm.
  assert (Hp1 : 0 < shr_m mrs1).
  { apply Zdigits2_pos_iff; [rewrite Hs1; apply Z.shiftr_nonneg; lia | lia]. }
  assert (Hm1 : 0 < m1) by lia.
  assert (Hdm1 : Zdigits2 (shr_m mrs1) <= Zdigits2 m1
                 <= Zdigits2 (shr_m mrs1) + 1).
  { split.
    - apply Zdigits2_le; lia.
    - transitivity (Zdigits2 (shr_m mrs1 + 1)).
      + apply Zdigits2_le; lia.
      + apply Zdigits2_succ. lia. }
  assert (Hm10 : 0 <= m1) by lia.
  pose proof (shr_fexp_bounds m1 e1 loc_Exact Hm10) as [_ He2].
  pose proof (shr_fexp_shiftr m1 e1 loc_Exact Hm10) as Hs2.
  destruct (shr_fexp B64.prec B64.emax m1 e1 loc_Exact) as [mrs2 e2].
  simpl fst in Hs2; simpl snd in He2.
  unfold fexp, SpecFloat.emin, B64.prec, B64.emax in He2, Hs2.
  assert (Hd2 : Zdigits2 (shr_m mrs2)
                = Z.max 0 (Zdigits2 m1 - Z.max 0 (Zdigits2 m1 - 53))).
  { rewrite Hs2, Zdigits2_shiftr by lia. clear Hs1 Hs2. lia. }
  assert (Hp2 : 0 < shr_m mrs2).
  { apply Zdigits2_pos_iff; [rewrite Hs2; apply Z.shiftr_nonneg; lia | lia]. }
  destruct (shr_m mrs2) as [| p |] eqn:Ep; try lia.
  change (B64.emax - B64.prec) with 971.
  clear Hs1 Hs2.
  destruct (Z.leb_spec e2 971) as [Hle | Hgt]; cbv beta iota; lia.
Qed.

Lemma Zdigits2_mul_below (p q : positive) :
  Zdigits2 (Zpos p) + Zdigits2 (Zpos q) - 1 <= Zdigits2 (Zpos (p * q)).
Proof.
  rewrite !Zdigits2_log2, Pos2Z.inj_mul.
  pose proof (Z.log2_mul_below (Zpos p) (Zpos q)). lia.
Qed.

Lemma SFdiv_core_by_eight (m : positive) (e : Z) :
  Zdigits2 (Zpos m) = 53 -> -1021 <= e ->
  SFdiv_core_binary B64.prec B64.emax (Zpos m) e
    (Zpos 4503599627370496) (-49)
  = (2 * Zpos m, e - 4, loc_Exact).
Proof.
  intros Hd He. unfold SFdiv_core_binary. rewrite Hd.
  change (Zdigits2 (Zpos 4503599627370496)) with 53.
  replace (Z.min (fexp B64.prec B64.emax (53 + e - (53 + -49))) (e - -49))
    with (e - 4)
    by (unfold fexp, SpecFloat.emin, B64.prec, B64.emax; lia).
  replace (e - -49 - (e - 4)) with 53 by lia.
  rewrite Z.shiftl_mul_pow2 by lia.
  pose proof (Z_div_mod (Zpos m * 2 ^ 53) (Zpos 4503599627370496)
                eq_refl) as Hdiv.
  destruct (Z.div_eucl (Zpos m * 2 ^ 53) (Zpos 4503599627370496))
    as [q r].
  change (2 ^ 53) with 9007199254740992 in Hdiv.
  assert (Hq : q = 2 * Zpos m) by lia.
  assert (Hr : r = 0) by lia.
  subst q r. reflexivity.
Qed.

(** The cloud fraction of a large cloud cover: finite, and an eighth of
    the cloud cover in size. *)
Lemma cloud_fraction_large (s : bool) (m : positive) (e : Z) :
  B64.valid (S754_finite s m e) = true -> -1021 <= e ->
  exists mx ex,
    @div B64.t _ (S754_finite s m e) (lit 80 1)
    = S754_finite (xorb s false) mx ex /\
    e + 50 <= Zdigits2 (Zpos mx) + ex.
Proof.
  intros Hv He.
  assert (Hd : Zdigits2 (Zpos m) = 53 /\ e <= 971).
  { unfold B64.valid, valid_binary, bounded, canonical_mantissa in Hv.
    apply andb_prop in Hv. destruct Hv as [H1 H2].
    apply Z.eqb_eq in H1. apply Z.leb_le in H2.
    change (Zpos (digits2_pos m)) with (Zdigits2 (Zpos m)) in H1.
    unfold fexp, SpecFloat.emin, B64.prec, B64.emax in H1, H2. lia. }
  destruct Hd as [Hd Hmax].
  change (@div B64.t _ (S754_finite s m e) (lit 80 1))
    with (let '(mz, ez, lz) :=
            SFdiv_core_binary B64.prec B64.emax (Zpos m) e
              (Zpos 4503599627370496) (-49) in
          binary_round_aux B64.prec B64.emax (xorb s false) mz ez lz).
  rewrite (SFdiv_core_by_eight m e Hd He).
  assert (Hd2 : Zdigits2 (2 * Zpos m) = 54).
  { change (Zdigits2 (2 * Zpos m)) with (Zpos (Pos.succ (digits2_pos m))).
    rewrite Pos2Z.inj_succ.
    change (Zpos (digits2_pos m)) with (Zdigits2 (Zpos m)). lia. }
  pose proof (binary_round_aux_shape (xorb s false) (2 * Zpos m) (e - 4)
                loc_Exact) as Hshape.
  rewrite Hd2 in Hshape.
  destruct (binary_round_aux B64.prec B64.emax (xorb s false) (2 * Zpos m)
              (e - 4) loc_Exact) as [s' | s' | | s' mx ex] eqn:E;
    try (exfalso; lia).
  assert (Hs : s' = xorb s false).
  { unfold binary_round_aux in E.
    destruct (shr_fexp B64.prec B64.emax (2 * Zpos m) (e - 4) loc_Exact)
      as [mrs1 e1].
    destruct (shr_fexp B64.prec B64.emax _ e1 loc_Exact) as [mrs2 e2].
    destruct (shr_m mrs2); try discriminate E.
    destruct (e2 <=? B64.emax - B64.prec); inversion E; reflexivity. }
  subst s'. exists mx, ex. split; [reflexivity | lia].
Qed.

Lemma cube_overflows (s : bool) (mx : positive) (ex : Z) :
  1027 <= 3 * (Zdigits2 (Zpos mx) + ex) ->
  B64.is_infinity (B64.pow (S754_finite s mx ex) 3) = true.
Proof.
  intro Hbig. unfold B64.pow.
  assert (Hm : 3 * Zdigits2 (Zpos mx) - 2 <= Zdigits2 (Zpos (mx ^ 3))).
  { replace (mx ^ 3)%positive with (mx * (mx * mx))%positive by lia.
    pose proof (Zdigits2_mul_below mx (mx * mx)).
    pose proof (Zdigits2_mul_below mx mx). lia. }
  pose proof (binary_round_aux_shape (s && B64.odd 3) (Zpos (mx ^ 3))
                (3 * ex) loc_Exact) as Hshape.
  destruct (binary_round_aux B64.prec B64.emax (s && B64.odd 3)
              (Zpos (mx ^ 3)) (3 * ex) loc_Exact)
    as [s' | s' | | s' m' e']; try reflexivity; exfalso; lia.
Qed.

End RoundingLarge.

Section B64Overflow.

Local Open Scope arith_scope.

(** X14.  In binary64, for every finite cloud cover of magnitude at
    least 1e104 the shortwave stage raises [OverflowError]: the cube of
    the cloud fraction is out of range. *)
Theorem shortwave_overflow (c Q : B64.t) :
  B64.valid c = true ->
  B64.is_finite c = true ->
  B64.leb (B64.of_Z (10 ^ 104)) (SFabs c) = true ->
  cell3_shortwave c Q = Raise OverflowError.
Proof.
  intros Hv Hf Hbig.
  assert (E10 : B64.of_Z (10 ^ 104)
                = S754_finite false 6283639635581090 293)
    by (vm_compute; reflexivity).
  rewrite E10 in Hbig. clear E10.
  destruct c as [s | s | | s m e]; try discriminate Hf;
    [discriminate Hbig |].
  assert (He : (293 <= e)%Z).
  { unfold B64.leb, SFleb, SFabs, SFcompare in Hbig.
    destruct (Z.compare_spec 293 e) as [E | E | E];
      [lia | lia | discriminate Hbig]. }
  destruct (cloud_fraction_large s m e Hv ltac:(lia)) as [mx [ex [Hx Hmag]]].
  unfold cell3_shortwave. rewrite Hx.
  change (float_pow (S754_finite (xorb s false) mx ex) 3)
    with (B64.py_float_pow (S754_finite (xorb s false) mx ex) 3).
  unfold B64.py_float_pow.
  rewrite (cube_overflows (xorb s false) mx ex) by lia.
  reflexivity.
Qed.

End B64Overflow.

(** * The further properties on concrete inputs *)

Section ExactRuns.

Local Open Scope R_scope.

Lemma density_and_buoyancy_closed_form_witness :
  exists d ob,
    cell5 (82 / 1000) 0 (346 / 10) 301 1025 4000 23 (1 / 10000) (7 / 10000)
    = Return d /\
    cell6 (981 / 100) (Qp d) 1025 (4 / 100) = Return ob /\
    Qnet d = 301 - 346 / 10 /\
    Qp d = - (1 / 10000) * Qnet d / 4000
           + 1025 * (7 / 10000) * (82 / 1000 - 0)
             / (3600 * (1 - 23 / 1000)) /\
    Bf ob = 981 / 100 * (1 / 10000) * Qnet d / (1025 * 4000)
            - 981 / 100 * (7 / 10000) * (82 / 1000 - 0)
              / (3600 * (1 - 23 / 1000)).
Proof.
  apply (density_and_buoyancy_closed_form
           (82 / 1000) 0 (346 / 10) 301 1025 4000 23 (1 / 10000) (7 / 10000)
           (981 / 100) (4 / 100)); lra.
Defined.

Lemma buoyancy_flux_sign_witness :
  exists d ob,
    cell5 0 1 (346 / 10) 301 1025 4000 23 (1 / 10000) (7 / 10000)
    = Return d /\
    cell6 (981 / 100) (Qp d) 1025 (4 / 100) = Return ob /\
    0 < Qnet d /\ Qp d < 0 /\ 0 < Bf ob.
Proof.
  destruct (buoyancy_flux_sign
              0 1 (346 / 10) 301 1025 4000 23 (1 / 10000) (7 / 10000)
              (981 / 100) (4 / 100))
    as [d [ob [H5 [H6 [Hheat _]]]]]; try lra.
  exists d, ob. split; [exact H5 |]. split; [exact H6 |].
  apply Hheat; lra.
Defined.

Lemma obukhov_length_sign_witness :
  exists ob,
    cell6 (981 / 100) (1 / 100000) 1025 (4 / 100) = Return ob /\
    0 < ustar ob /\
    1025 * (ustar ob) ^ 2 = 4 / 100 /\
    L ob * Bf ob = - (ustar ob) ^ 3 / (4 / 10) /\
    L ob * Bf ob < 0 /\
    (0 < Bf ob -> L ob < 0) /\
    (Bf ob < 0 -> 0 < L ob).
Proof.
  apply (obukhov_length_sign (981 / 100) (1 / 100000) 1025 (4 / 100)); lra.
Defined.

End ExactRuns.

Section B64Runs.

Local Open Scope arith_scope.

Lemma density_flux_silent_division_by_zero_witness :
  exists d,
    cell5 (lit 828 4) (lit 0 1) (lit 34585 3) (lit 301 0) (lit 10250 1)
      (lit 40700 1) (lit 10000 1) (lit 11 5) (lit 77 5) = Return d /\
    B64.is_finite (Fs d) = false /\
    B64.is_finite (Qp d) = false.
Proof.
  destruct (density_flux_silent_division_by_zero
              (lit 828 4) (lit 0 1) (lit 34585 3) (lit 301 0) (lit 10250 1)
              (lit 40700 1) (lit 10000 1) (lit 11 5) (lit 77 5))
    as [d [H5 [HS _]]].
  exists d. split; [exact H5 |]. apply HS. reflexivity.
Defined.

Lemma notebook_passes_nan_on_witness :
  exists s,
    notebook
      (fun _ => Return [[lit 3556 5; lit (-407) 2; lit 570 1;
                         lit (-1835) 2; S754_nan; lit 828 4]])
      Recorded.gsw_alpha Recorded.gsw_beta Recorded.gsw_cp_t_exact cell2
    = Return s /\
    net_heat_flux s = S754_nan /\ buoyancy_flux s = S754_nan /\
    obukhov_length s = S754_nan.
Proof.
  assert (H3 : cell3
                 (fun _ => Return [[lit 3556 5; lit (-407) 2; lit 570 1;
                                    lit (-1835) 2; S754_nan; lit 828 4]])
                 cell2 = Return (_, _))
    by (vm_compute; reflexivity).
  assert (H4 : cell4 Recorded.gsw_alpha Recorded.gsw_beta
                 Recorded.gsw_cp_t_exact cell2 = Return _)
    by (vm_compute; reflexivity).
  destruct (notebook_passes_nan_on _ _ _ _ _ _ _ _ H3 H4)
    as [s [Hs [Hnan _]]].
  exists s. split; [exact Hs |]. apply Hnan. reflexivity.
Defined.

Lemma shortwave_cloud_cover_not_finite_witness :
  exists sw,
    cell3_shortwave (S754_infinity false) (lit 9700 1) = Return sw /\
    B64.is_finite (Qshortwave sw) = false.
Proof.
  apply (shortwave_cloud_cover_not_finite (S754_infinity false) (lit 9700 1)).
  reflexivity.
Defined.

Lemma shortwave_overflow_witness :
  cell3_shortwave (B64.of_float 1e200) (lit 9700 1) = Raise OverflowError.
Proof.
  apply (shortwave_overflow (B64.of_float 1e200) (lit 9700 1));
    vm_compute; reflexivity.
Defined.

End B64Runs.
